(** * ngrev: the background application (src/background/model/background-app.ts)

    A shallow embedding of the [TaskQueue] class and of the IPC handlers that
    [BackgroundApp.init] registers, followed by the properties of the
    request-serialisation core.

    The event loop is modelled by explicit state passing.  One step of the
    model is one turn of the loop: either an IPC message from the renderer
    reaches its [ipcMain.on] listener, or the promise returned by
    [slaveProcess.send] settles and the callbacks chained on it run (the
    command's [then] callback first, then the queue's [() => this.next()]).
    [console.log] calls are not modelled: they reach neither the renderer nor
    the worker. *)

From Stdlib Require Import ZArith Floats.SpecFloat.
From stdpp Require Import gmap strings list.

Set Warnings "-register-all".

(** ** JavaScript values, as far as the handlers inspect them *)

Module JS.

(** A value that can arrive in a worker reply.  Numbers are IEEE 754 doubles
    ([spec_float] carries the sign of zero, the infinities and NaN); an object
    is the finite map of its own properties. *)
Inductive value : Type :=
| VUndefined
| VNull
| VBool (b : bool)
| VNumber (x : spec_float)
| VString (s : string)
| VArray (items : list value)
| VObject (props : gmap string value).

(** ToBoolean: what [if (v)] tests. *)
Definition truthy (v : value) : bool :=
  match v with
  | VUndefined | VNull => false
  | VBool b => b
  | VNumber (S754_zero _) | VNumber S754_nan => false
  | VNumber _ => true
  | VString EmptyString => false
  | VString _ => true
  | VArray _ | VObject _ => true
  end.

(** [o.k] on an object [o]: the property, or [undefined] when [o] has none
    of that name.  The four names the handlers read ([err], [available],
    [symbols], [data]) are not inherited from [Object.prototype]. *)
Definition get (o : gmap string value) (k : string) : value :=
  default VUndefined (o !! k).

(** [xs[i]]: [undefined] outside [0 .. length-1], in particular at [-1]. *)
Definition index {A} (xs : list A) (i : Z) : option A :=
  if (i <? 0)%Z then None else xs !! Z.to_nat i.

End JS.

Import JS.

(** ** The shared IPC vocabulary *)

(** Modelled from the spec: the enum [Message] of shared/ipc-constants, which
    is not among the sources; these are the members background-app.ts names,
    one per command kind. *)
Inductive Message : Type :=
| Config | LoadProject | PrevState | DirectStateTransition | GetSymbols
| GetMetadata | GetData | ToggleLibs | DisableExport | EnableExport.

(** Modelled from the spec: the enum [Status] of shared/ipc-constants
    (outcome of a signal: Success or Failure). *)
Inductive Status : Type := Success | Failure.

(** [e.sender], the reply channel of an inbound IPC event. *)
Definition Sender := nat.

(** One call [sender.send(msg, status, payload)]. *)
Record Signal : Type := mkSignal {
  target : Sender;
  channel : Message;
  status : Status;
  payload : value
}.

Definition success (sender : Sender) (msg : Message) (payload : value) : list Signal :=
  [mkSignal sender msg Success payload].

Definition error (sender : Sender) (msg : Message) (payload : value) : list Signal :=
  [mkSignal sender msg Failure payload].

(** The object handed to [slaveProcess.send]: a topic and the command's
    parameters. *)
Record Request : Type := mkRequest {
  topic : Message;
  params : gmap string value
}.

(** How the promise returned by [slaveProcess.send] settles.  A reply is an
    object (the [...Response] interfaces of helpers/process). *)
Inductive Outcome : Type :=
| Fulfilled (reply : gmap string value)
| Rejected (reason : value).

(** ** class TaskQueue *)

Module TaskQueue.
Section WithTask.
Context {Task : Type}.

(** [Array.prototype.unshift]: insert at the front. *)
Definition unshift (task : Task) (queue : list Task) : list Task := task :: queue.

(** [Array.prototype.pop]: remove and return the last element, [undefined]
    on an empty array. *)
Definition pop (queue : list Task) : option Task * list Task :=
  (last queue, removelast queue).

(** [next()]: the new backlog, and the task that was called, if any.  The
    caller of the model records the promise the call returned, with
    [() => this.next()] attached for both fulfilment and rejection. *)
Definition next (queue : list Task) : list Task * option Task :=
  match pop queue with
  | (Some task, queue') => (queue', Some task)
  | (None, queue') => (queue', None)
  end.

(** [push(task)]. *)
Definition push (task : Task) (queue : list Task) : list Task * option Task :=
  let queue1 := unshift task queue in
  if decide (length queue1 = 1) then next queue1 else (queue1, None).

(** [push] called for each task in turn, oldest first: the backlog left. *)
Definition pushes (tasks : list Task) (queue : list Task) : list Task :=
  fold_left (λ q task, (push task q).1) tasks queue.

(** [next()] called [n] times in a row, stopping when the backlog is empty:
    the tasks called, in the order of the calls, and the backlog left. *)
Fixpoint drain (n : nat) (queue : list Task) : list Task * list Task :=
  match n with
  | 0 => ([], queue)
  | S n' =>
      match next queue with
      | (queue', Some task) =>
          let '(called, rest) := drain n' queue' in (task :: called, rest)
      | (queue', None) => ([], queue')
      end
  end.

End WithTask.
End TaskQueue.

(** ** class BackgroundApp *)

Module BackgroundApp.

(** The closures that the listeners push on the queue, one constructor per
    listener, with the variables each closure captures. *)
Inductive Task : Type :=
| TLoadProject (e : Sender) (tsconfig : string) (showLibs : bool)
| TPrevState (e : Sender)
| TDirectStateTransition (e : Sender) (id : string)
| TGetSymbols (e : Sender)
| TGetMetadata (e : Sender) (id : string)
| TGetData (e : Sender)
| TToggleLibs (e : Sender).

(** The argument of [this.slaveProcess.send] in each closure. *)
Definition request (t : Task) : Request :=
  match t with
  | TLoadProject _ tsconfig showLibs =>
      mkRequest LoadProject
        {[ "tsconfig" := VString tsconfig; "showLibs" := VBool showLibs ]}
  | TPrevState _ => mkRequest PrevState ∅
  | TDirectStateTransition _ id =>
      mkRequest DirectStateTransition {[ "id" := VString id ]}
  | TGetSymbols _ => mkRequest GetSymbols ∅
  | TGetMetadata _ id => mkRequest GetMetadata {[ "id" := VString id ]}
  | TGetData _ => mkRequest GetData ∅
  | TToggleLibs _ => mkRequest ToggleLibs ∅
  end.

(** The [then] callback of each closure, applied to the worker's reply. *)
Definition on_fulfilled (t : Task) (data : gmap string value) : list Signal :=
  match t with
  | TLoadProject e _ _ =>
      if truthy (get data "err")
      then error e LoadProject (get data "err")
      else success e LoadProject VNull
  | TPrevState e =>
      if truthy (get data "available")
      then success e PrevState (get data "available")
      else error e PrevState (get data "available")
  | TDirectStateTransition e _ =>
      if truthy (get data "available")
      then success e DirectStateTransition (get data "available")
      else error e DirectStateTransition (get data "available")
  | TGetSymbols e =>
      if truthy (get data "symbols")
      then success e GetSymbols (get data "symbols")
      else []
  | TGetMetadata e _ =>
      if truthy (get data "data")
      then success e GetMetadata (get data "data")
      else error e GetMetadata VNull
  | TGetData e =>
      if truthy (get data "data")
      then success e GetData (get data "data")
      else error e GetData VNull
  | TToggleLibs e => success e ToggleLibs (VBool true)
  end.

(** What [slaveProcess.send(..).then(callback)] sends to the renderer when
    the round trip settles: the callback is attached for fulfilment only, so
    a rejection passes through to the task's promise without a signal. *)
Definition round_trip (t : Task) (o : Outcome) : list Signal :=
  match o with
  | Fulfilled data => on_fulfilled t data
  | Rejected _ => []
  end.

(** Whether the task's own promise is fulfilled. *)
Definition fulfilled (o : Outcome) : bool :=
  match o with Fulfilled _ => true | Rejected _ => false end.

(** An inbound IPC event: the listener's channel, [e.sender], and the
    arguments with the types the listener declares. *)
Inductive Ipc : Type :=
| OnConfig (e : Sender)
| OnLoadProject (e : Sender) (tsconfig : string) (showLibs : bool)
| OnPrevState (e : Sender)
| OnDirectStateTransition (e : Sender) (id : string)
| OnGetSymbols (e : Sender)
| OnGetMetadata (e : Sender) (id : string)
| OnGetData (e : Sender)
| OnToggleLibs (e : Sender)
| OnDisableExport (e : Sender)
| OnEnableExport (e : Sender).

(** Identity of a promise returned by a call of a task. *)
Definition Pid := nat.

(** What the outside can observe, in order of occurrence. *)
Inductive Event : Type :=
| Started (p : Pid) (req : Request)      (* task called: request sent to the worker *)
| Emitted (s : Signal)                   (* sender.send(..) *)
| Settled (p : Pid) (ok : bool).         (* the task's promise settled *)

Definition signal_of (ev : Event) : option Signal :=
  match ev with Emitted s => Some s | _ => None end.

Section WithState.

(** The class [State] of background/states/state is opaque to this file. *)
Context {State : Type}.

Record App : Type := mkApp {
  states : list State;          (* private states: State[] = [] *)
  queue : list Task;            (* taskQueue.queue *)
  pending : gmap Pid Task;      (* tasks called and not yet settled *)
  fresh : Pid;                  (* next promise identity *)
  config : value;               (* the argument of init *)
  exportEnabled : bool;         (* menus.items[0].submenu.items[1].enabled *)
  log : list Event
}.

Definition set_queue (q : list Task) (a : App) : App :=
  mkApp (states a) q (pending a) (fresh a) (config a) (exportEnabled a) (log a).

Definition set_pending (m : gmap Pid Task) (a : App) : App :=
  mkApp (states a) (queue a) m (fresh a) (config a) (exportEnabled a) (log a).

Definition set_fresh (n : Pid) (a : App) : App :=
  mkApp (states a) (queue a) (pending a) n (config a) (exportEnabled a) (log a).

Definition set_exportEnabled (b : bool) (a : App) : App :=
  mkApp (states a) (queue a) (pending a) (fresh a) (config a) b (log a).

Definition record (evs : list Event) (a : App) : App :=
  mkApp (states a) (queue a) (pending a) (fresh a) (config a) (exportEnabled a)
        (log a ++ evs).

(** [init(config)]: a new, empty queue; nothing in flight. *)
Definition init (cfg : value) (menuEnabled : bool) : App :=
  mkApp [] [] ∅ 0 cfg menuEnabled [].

(** [get state()]. *)
Definition state (a : App) : option State :=
  index (states a) (Z.of_nat (length (states a)) - 1).

(** The call [task()] inside [next]: the request goes out and the returned
    promise is pending. *)
Definition call (started : option Task) (a : App) : App :=
  match started with
  | None => a
  | Some t =>
      record [Started (fresh a) (request t)]
        (set_fresh (S (fresh a)) (set_pending (<[fresh a := t]> (pending a)) a))
  end.

(** [this.taskQueue.push(task)]. *)
Definition push (t : Task) (a : App) : App :=
  let '(q, started) := TaskQueue.push t (queue a) in
  call started (set_queue q a).

(** [this.next()], as called back when a task's promise settles. *)
Definition next (a : App) : App :=
  let '(q, started) := TaskQueue.next (queue a) in
  call started (set_queue q a).

(** The listeners registered by [init]. *)
Definition on_ipc (m : Ipc) (a : App) : App :=
  match m with
  | OnConfig e => record (map Emitted (success e Config (config a))) a
  | OnLoadProject e tsconfig showLibs => push (TLoadProject e tsconfig showLibs) a
  | OnPrevState e => push (TPrevState e) a
  | OnDirectStateTransition e id => push (TDirectStateTransition e id) a
  | OnGetSymbols e => push (TGetSymbols e) a
  | OnGetMetadata e id => push (TGetMetadata e id) a
  | OnGetData e => push (TGetData e) a
  | OnToggleLibs e => push (TToggleLibs e) a
  | OnDisableExport e =>
      record (map Emitted (success e DisableExport (VBool true)))
        (set_exportEnabled false a)
  | OnEnableExport e =>
      record (map Emitted (success e EnableExport (VBool true)))
        (set_exportEnabled true a)
  end.

(** The round trip of the pending promise [p] settles with [o]: the
    command's callback runs, the task's promise settles, and the queue's
    callback calls [next].  [None] when no such promise is pending. *)
Definition on_settle (p : Pid) (o : Outcome) (a : App) : option App :=
  match pending a !! p with
  | None => None
  | Some t =>
      Some (next (record (map Emitted (round_trip t o) ++ [Settled p (fulfilled o)])
                         (set_pending (delete p (pending a)) a)))
  end.

(** One turn of the event loop. *)
Inductive Input : Type :=
| Renderer (m : Ipc)
| Worker (p : Pid) (o : Outcome).

Definition step (a : App) (i : Input) : option App :=
  match i with
  | Renderer m => Some (on_ipc m a)
  | Worker p o => on_settle p o a
  end.

Fixpoint run (a : App) (ins : list Input) : option App :=
  match ins with
  | [] => Some a
  | i :: ins' =>
      match step a i with
      | Some a' => run a' ins'
      | None => None
      end
  end.

(** A state the application can be in after [init]. *)
Definition reachable (a : App) : Prop :=
  ∃ cfg menuEnabled ins, run (init cfg menuEnabled) ins = Some a.

(** The signals the renderer has received so far, in order. *)
Definition outbox (a : App) : list Signal := omap signal_of (log a).

(** The tasks executing against the worker. *)
Definition executing (a : App) : nat := size (pending a).

(** The task a listener pushes; the three listeners that answer at once
    push none. *)
Definition pushed (m : Ipc) : option Task :=
  match m with
  | OnLoadProject e tsconfig showLibs => Some (TLoadProject e tsconfig showLibs)
  | OnPrevState e => Some (TPrevState e)
  | OnDirectStateTransition e id => Some (TDirectStateTransition e id)
  | OnGetSymbols e => Some (TGetSymbols e)
  | OnGetMetadata e id => Some (TGetMetadata e id)
  | OnGetData e => Some (TGetData e)
  | OnToggleLibs e => Some (TToggleLibs e)
  | OnConfig _ | OnDisableExport _ | OnEnableExport _ => None
  end.

(** The invariant of the running application: the backlog is empty between
    turns, and promise identities are not reused. *)
Definition idle_backlog (a : App) : Prop :=
  queue a = [] ∧ ∀ p t, pending a !! p = Some t → p < fresh a.

End WithState.

Arguments App : clear implicits.

(** The channel a listener is registered on. *)
Definition kind (m : Ipc) : Message :=
  match m with
  | OnConfig _ => Config
  | OnLoadProject _ _ _ => LoadProject
  | OnPrevState _ => PrevState
  | OnDirectStateTransition _ _ => DirectStateTransition
  | OnGetSymbols _ => GetSymbols
  | OnGetMetadata _ _ => GetMetadata
  | OnGetData _ => GetData
  | OnToggleLibs _ => ToggleLibs
  | OnDisableExport _ => DisableExport
  | OnEnableExport _ => EnableExport
  end.

(** [e.sender] of an inbound event. *)
Definition sender (m : Ipc) : Sender :=
  match m with
  | OnConfig e | OnLoadProject e _ _ | OnPrevState e
  | OnDirectStateTransition e _ | OnGetSymbols e | OnGetMetadata e _
  | OnGetData e | OnToggleLibs e | OnDisableExport e | OnEnableExport e => e
  end.

(** What an enable-export or disable-export command assigns to the menu
    item; [None] for the other commands. *)
Definition export_assignment (m : Ipc) : option bool :=
  match m with
  | OnDisableExport _ => Some false
  | OnEnableExport _ => Some true
  | _ => None
  end.

(** The commands among the inputs of a run, in order of arrival. *)
Definition commands (ins : list Input) : list Ipc :=
  omap (λ i, match i with Renderer m => Some m | Worker _ _ => None end) ins.

(** The number of worker settlements among the inputs of a run. *)
Definition settlements (ins : list Input) : nat :=
  length (omap (λ i, match i with Worker p _ => Some p | Renderer _ => None end) ins).

(** The requests handed to the worker so far, in order. *)
Definition sent {State : Type} (a : App State) : list Request :=
  omap (λ ev, match ev with Started _ req => Some req | _ => None end) (log a).

(** What the renderer can find in a signal, channel by channel: the table
    of the payloads the listeners of [init] send. *)
Definition expected (s : Signal) : Prop :=
  match channel s, status s with
  | Config, Success => True
  | LoadProject, Success => payload s = VNull
  | LoadProject, Failure => truthy (payload s) = true
  | (PrevState | DirectStateTransition), Success => truthy (payload s) = true
  | (PrevState | DirectStateTransition), Failure => truthy (payload s) = false
  | GetSymbols, Success => truthy (payload s) = true
  | (GetMetadata | GetData), Success => truthy (payload s) = true
  | (GetMetadata | GetData), Failure => payload s = VNull
  | (ToggleLibs | DisableExport | EnableExport), Success => payload s = VBool true
  | _, Failure => False
  end.

End BackgroundApp.

Import BackgroundApp.

(** Sample runs: the application after [init({}, ..)] and one command. *)
Definition started : App unit := init (VObject ∅) true.

Definition awaiting (m : Ipc) : App unit := on_ipc m started.

(** The application after get-data, enable-export, and an empty reply to
    the get-data request. *)
Definition answered : App unit :=
  mkApp [] [] ∅ 1 (VObject ∅) true
    [Started 0 (request (TGetData 7));
     Emitted (mkSignal 7 EnableExport Success (VBool true));
     Emitted (mkSignal 7 GetData Failure VNull);
     Settled 0 true].

(** A queue with get-data in flight and toggle-libraries waiting behind it
    in the backlog. *)
Definition waiting : App unit :=
  mkApp [] [TToggleLibs 8] {[ 0 := TGetData 7 ]} 1 (VObject ∅) true
    [Started 0 (request (TGetData 7))].

(** The inputs of that run. *)
Definition sample_run : list Input :=
  [Renderer (OnGetData 7); Renderer (OnEnableExport 7); Worker 0 (Fulfilled ∅)].

(** ** The queue on its own *)

Section QueueFacts.
Context {Task : Type}.
Implicit Types (task : Task) (queue : list Task).

Lemma next_empty : TaskQueue.next (@nil Task) = ([], None).
Proof. reflexivity. Qed.

Lemma next_snoc queue task :
  TaskQueue.next (queue ++ [task]) = (queue, Some task).
Proof.
  unfold TaskQueue.next, TaskQueue.pop.
  by rewrite last_snoc, removelast_last.
Qed.

Lemma push_idle task : TaskQueue.push task [] = ([], Some task).
Proof. reflexivity. Qed.

Lemma push_backlog task queue :
  queue ≠ [] → TaskQueue.push task queue = (task :: queue, None).
Proof.
  intros Hne. unfold TaskQueue.push, TaskQueue.unshift.
  destruct queue as [|t0 queue]; [done|].
  case_decide as Hlen; [simpl in Hlen; lia | done].
Qed.

End QueueFacts.

(** ** The application: bookkeeping lemmas *)

Section AppFacts.
Context {State : Type}.
Implicit Types (a : App State) (t : Task) (p : Pid) (o : Outcome).

Lemma on_ipc_pushed m t a : pushed m = Some t → on_ipc m a = push t a.
Proof. destruct m; simpl; intros [= <-]; reflexivity. Qed.

Lemma omap_emitted (sigs : list Signal) : omap signal_of (map Emitted sigs) = sigs.
Proof. induction sigs as [|s sigs IH]; [done|]. cbn. by f_equal. Qed.

Lemma outbox_record evs a : outbox (record evs a) = outbox a ++ omap signal_of evs.
Proof. unfold outbox. simpl. apply omap_app. Qed.

Lemma outbox_call st a : outbox (call st a) = outbox a.
Proof.
  destruct st as [t|]; [|done].
  unfold call. rewrite outbox_record. simpl. by rewrite app_nil_r.
Qed.

Lemma outbox_next a : outbox (next a) = outbox a.
Proof.
  unfold next. destruct (TaskQueue.next (queue a)) as [q st].
  by rewrite outbox_call.
Qed.

Lemma outbox_push t a : outbox (push t a) = outbox a.
Proof.
  unfold push. destruct (TaskQueue.push t (queue a)) as [q st].
  by rewrite outbox_call.
Qed.

Lemma states_call st a : states (call st a) = states a.
Proof. by destruct st. Qed.

Lemma states_next a : states (next a) = states a.
Proof.
  unfold next. destruct (TaskQueue.next (queue a)) as [q st].
  by rewrite states_call.
Qed.

Lemma states_push t a : states (push t a) = states a.
Proof.
  unfold push. destruct (TaskQueue.push t (queue a)) as [q st].
  by rewrite states_call.
Qed.

Lemma states_step a i a' : step a i = Some a' → states a' = states a.
Proof.
  destruct i as [m|p o]; simpl.
  - intros [= <-]. destruct m; simpl; by rewrite ?states_push.
  - unfold on_settle. destruct (pending a !! p) as [t|]; [|done].
    intros [= <-]. by rewrite states_next.
Qed.

(** With nothing in the backlog, [push] calls the task on the spot. *)
Lemma push_calls_at_once t a :
  queue a = [] → push t a = call (Some t) a.
Proof.
  intros Hq. unfold push. rewrite Hq, push_idle.
  f_equal. destruct a; simpl in *; by subst.
Qed.

(** With nothing in the backlog, [next] finds nothing to call. *)
Lemma next_nothing a : queue a = [] → next a = a.
Proof.
  intros Hq. unfold next. rewrite Hq, next_empty. simpl.
  destruct a; simpl in *; by subst.
Qed.

Lemma idle_backlog_init cfg menuEnabled :
  idle_backlog (init (State := State) cfg menuEnabled).
Proof. split; [done|]. intros p t. simpl. by rewrite lookup_empty. Qed.

Lemma idle_backlog_call t a : idle_backlog a → idle_backlog (call (Some t) a).
Proof.
  intros [Hq Hp]. split; [done|]. simpl. intros p t'.
  rewrite lookup_insert. case_decide as Heq.
  - intros _. lia.
  - intros Hl. apply Hp in Hl. lia.
Qed.

Lemma idle_backlog_step a i a' :
  idle_backlog a → step a i = Some a' → idle_backlog a'.
Proof.
  intros Hinv. destruct i as [m|p o]; simpl.
  - intros [= <-]. destruct (pushed m) as [t|] eqn:Hm.
    + rewrite (on_ipc_pushed _ _ _ Hm), push_calls_at_once by apply Hinv.
      by apply idle_backlog_call.
    + destruct m; try discriminate; exact Hinv.
  - unfold on_settle. destruct (pending a !! p) as [t|] eqn:Hl; [|done].
    intros [= <-]. rewrite next_nothing by apply Hinv.
    destruct Hinv as [Hq Hp]. split; [done|]. simpl. intros p' t'.
    rewrite lookup_delete. case_decide; [done|]. apply Hp.
Qed.

Lemma idle_backlog_run ins : ∀ a a',
  idle_backlog a → run a ins = Some a' → idle_backlog a'.
Proof.
  induction ins as [|i ins IH]; simpl; intros a a' Hinv.
  - by intros [= <-].
  - destruct (step a i) as [a1|] eqn:Hs; [|done].
    apply IH. by eapply idle_backlog_step.
Qed.

Lemma reachable_idle_backlog a : reachable a → idle_backlog a.
Proof.
  intros (cfg & menuEnabled & ins & Hrun).
  eapply idle_backlog_run; [apply idle_backlog_init | exact Hrun].
Qed.

(** The effect of a settlement on what the renderer has received. *)
Lemma settle_outbox a p t o :
  pending a !! p = Some t →
  ∃ a', step a (Worker p o) = Some a' ∧ outbox a' = outbox a ++ round_trip t o.
Proof.
  intros Hl. simpl. unfold on_settle. rewrite Hl. eexists. split; [done|].
  rewrite outbox_next, outbox_record, omap_app, omap_emitted. simpl.
  by rewrite app_nil_r.
Qed.

(** [next] hands the oldest task of a backlog to the worker, whichever way
    the previous task settled. *)
Lemma settle_calls_oldest a p t o q t' :
  pending a !! p = Some t → queue a = q ++ [t'] →
  ∃ a', step a (Worker p o) = Some a' ∧ queue a' = q ∧
        pending a' = <[fresh a := t']> (delete p (pending a)) ∧
        log a' = log a ++ map Emitted (round_trip t o)
                       ++ [Settled p (fulfilled o); Started (fresh a) (request t')].
Proof.
  intros Hl Hq. simpl. unfold on_settle. rewrite Hl. eexists. split; [done|].
  unfold next. simpl. rewrite Hq, next_snoc. simpl.
  repeat split. by rewrite <- !app_assoc.
Qed.

End AppFacts.

(** ** The serial task queue *)

Section QueueProperties.
Context {State : Type}.
Implicit Types (a : App State) (t : Task) (p : Pid) (o : Outcome).

(** Between turns of the event loop the backlog is empty: [next] pops the
    task before calling it, so the test [this.queue.length === 1] in [push]
    succeeds on every push, and the [next] chained on a settlement never
    finds a task waiting. *)
Lemma backlog_always_empty a : reachable a → queue a = [].
Proof. intros Hr. by destruct (reachable_idle_backlog a Hr). Qed.

(** Hence every pushed task is called at once, however many are in flight. *)
Lemma push_never_waits a m t :
  reachable a → pushed m = Some t →
  step a (Renderer m) = Some (call (Some t) a)
  ∧ executing (call (Some t) a) = S (executing a).
Proof.
  intros Hr Hm. destruct (reachable_idle_backlog a Hr) as [Hq Hp]. split.
  - simpl. by rewrite (on_ipc_pushed _ _ _ Hm), push_calls_at_once.
  - unfold executing. simpl. apply map_size_insert_None.
    destruct (pending a !! fresh a) as [t'|] eqn:Hl; [|done].
    apply Hp in Hl. lia.
Qed.

(** C1, on the code: mutual exclusion does not hold.  A get-data command
    followed by a list-symbols command, with no reply from the worker in
    between, leaves both tasks executing: the first was popped from the
    backlog when it was called, so the second push sees a backlog of length
    one and calls its task too. *)
Theorem second_push_overlaps_first (cfg : value) (menuEnabled : bool) (e1 e2 : Sender) :
  ∃ a : App State,
    run (init cfg menuEnabled)
        [Renderer (OnGetData e1); Renderer (OnGetSymbols e2)] = Some a
    ∧ queue a = []
    ∧ pending a !! 0 = Some (TGetData e1)
    ∧ pending a !! 1 = Some (TGetSymbols e2)
    ∧ executing a = 2
    ∧ log a = [Started 0 (request (TGetData e1));
               Started 1 (request (TGetSymbols e2))].
Proof. eexists. repeat split; reflexivity. Qed.

(** C2, on the code: settlement is not in push order.  With get-data pushed
    before toggle-libraries and the worker answering the second request
    first, the run is one the application accepts, and the toggle-libraries
    signal reaches the renderer before the get-data task settles. *)
Theorem later_task_settles_first (cfg : value) (menuEnabled : bool) (e1 e2 : Sender)
    (replyA replyB : gmap string value) :
  ∃ a : App State,
    run (init cfg menuEnabled)
        [Renderer (OnGetData e1); Renderer (OnToggleLibs e2);
         Worker 1 (Fulfilled replyB); Worker 0 (Fulfilled replyA)] = Some a
    ∧ log a = [Started 0 (request (TGetData e1));
               Started 1 (request (TToggleLibs e2));
               Emitted (mkSignal e2 ToggleLibs Success (VBool true));
               Settled 1 true]
              ++ map Emitted (on_fulfilled (TGetData e1) replyA)
              ++ [Settled 0 true].
Proof. eexists. split; reflexivity. Qed.

(** C3: a rejected task is absorbed by the queue.  In any state, when the
    round trip of a task A in flight rejects, the turn sends no signal for
    A, records A's promise as rejected, and runs the queue's rejection
    callback, which calls [next()]: a task B waiting at the back of the
    backlog is popped and called in that same turn, and when B's round trip
    is fulfilled B's callback sends its signals; with an empty backlog, as
    in every state the application can reach, the queue is idle again, a
    command B arriving afterwards has its task called at once, and when B's
    round trip is fulfilled B's callback sends its signals and B settles.
    A rejection leaves the backlog, the tasks in flight and the promise
    counter exactly as a fulfilment of the same task would. *)
Theorem rejection_is_absorbed a p tA reason :
  pending a !! p = Some tA →
  ∃ a1,
    step a (Worker p (Rejected reason)) = Some a1
    ∧ outbox a1 = outbox a
    ∧ (∀ q tB, queue a = q ++ [tB] →
         queue a1 = q
         ∧ pending a1 = <[fresh a := tB]> (delete p (pending a))
         ∧ log a1 = log a ++ [Settled p false; Started (fresh a) (request tB)]
         ∧ ∀ reply, ∃ a2,
             step a1 (Worker (fresh a) (Fulfilled reply)) = Some a2
             ∧ outbox a2 = outbox a ++ on_fulfilled tB reply)
    ∧ (queue a = [] →
         queue a1 = []
         ∧ pending a1 = delete p (pending a)
         ∧ pending a1 !! p = None
         ∧ log a1 = log a ++ [Settled p false]
         ∧ ∀ mB tB reply, pushed mB = Some tB →
             ∃ a2 a3,
               step a1 (Renderer mB) = Some a2
               ∧ pending a2 !! fresh a1 = Some tB
               ∧ log a2 = log a1 ++ [Started (fresh a1) (request tB)]
               ∧ step a2 (Worker (fresh a1) (Fulfilled reply)) = Some a3
               ∧ log a3 = log a2 ++ map Emitted (on_fulfilled tB reply)
                                ++ [Settled (fresh a1) true])
    ∧ (reachable a → queue a = [])
    ∧ (∀ reply, ∃ a1',
         step a (Worker p (Fulfilled reply)) = Some a1'
         ∧ queue a1' = queue a1 ∧ pending a1' = pending a1 ∧ fresh a1' = fresh a1).
Proof.
  intros HA.
  set (b := record [Settled p false] (set_pending (delete p (pending a)) a)).
  exists (next b). split; [|split; [|split; [|split; [|split]]]].
  - simpl. unfold on_settle. by rewrite HA.
  - rewrite outbox_next. unfold b. rewrite outbox_record. simpl.
    by rewrite app_nil_r.
  - intros q tB Hq.
    assert (Hn : next b
                 = call (Some tB) (set_queue q b)).
    { unfold next. simpl. by rewrite Hq, next_snoc. }
    rewrite Hn. split; [done|]. split; [done|]. split.
    + simpl. by rewrite <- app_assoc.
    + intros reply.
      destruct (settle_outbox (call (Some tB) (set_queue q b)) (fresh a) tB
                  (Fulfilled reply)) as (a2 & Hs & Ho).
      { simpl. by rewrite lookup_insert_eq. }
      exists a2. split; [exact Hs|]. rewrite Ho, outbox_call. unfold outbox.
      simpl. rewrite omap_app. simpl. by rewrite app_nil_r.
  - intros Hq. assert (Hb : next b = b) by (apply next_nothing; exact Hq).
    rewrite Hb. split; [exact Hq|]. split; [done|]. split.
    { simpl. by rewrite lookup_delete_eq. }
    split; [done|]. intros mB tB reply HB.
    exists (call (Some tB) b).
    exists (record (map Emitted (on_fulfilled tB reply) ++ [Settled (fresh b) true])
              (set_pending (delete (fresh b) (pending (call (Some tB) b)))
                 (call (Some tB) b))).
    split; [|split; [|split; [|split]]].
    + simpl. by rewrite (on_ipc_pushed _ _ _ HB), push_calls_at_once.
    + simpl. by rewrite lookup_insert_eq.
    + done.
    + simpl. unfold on_settle. simpl. rewrite lookup_insert_eq.
      by rewrite next_nothing.
    + done.
  - apply backlog_always_empty.
  - intros reply. eexists. split.
    + simpl. unfold on_settle. by rewrite HA.
    + unfold next, b. simpl.
      by destruct (TaskQueue.next (queue a)) as [q [t|]].
Qed.

End QueueProperties.

(** ** The command router *)

Section RouterProperties.
Context {State : Type}.
Implicit Types (a : App State) (t : Task) (p : Pid) (o : Outcome).
Implicit Types (data : gmap string value) (v : value).

(** The values that [if (v)] rejects. *)
Lemma truthy_false_iff v :
  truthy v = false ↔
  v = VUndefined ∨ v = VNull ∨ v = VBool false ∨ (∃ s, v = VNumber (S754_zero s))
  ∨ v = VNumber S754_nan ∨ v = VString "".
Proof.
  split.
  - destruct v as [| |[]|[]|[]| |]; simpl; try discriminate; intros _; eauto 8.
  - intros [->|[->|[->|[[s ->]|[->| ->]]]]]; reflexivity.
Qed.

(** C4: load-project.  When the round trip of a load-project task is
    fulfilled, the renderer receives exactly one signal: Success with payload
    null when the reply's err is absent or null, Failure carrying err itself
    when err holds an error value (one that [if (data.err)] accepts). *)
Theorem load_project_reply_mapping a p e tsconfig showLibs data :
  pending a !! p = Some (TLoadProject e tsconfig showLibs) →
  ∃ a', step a (Worker p (Fulfilled data)) = Some a'
    ∧ (data !! "err" = None ∨ data !! "err" = Some VNull →
         outbox a' = outbox a ++ [mkSignal e LoadProject Success VNull])
    ∧ (truthy (get data "err") = true →
         outbox a' = outbox a ++ [mkSignal e LoadProject Failure (get data "err")])
    ∧ (∃ s, outbox a' = outbox a ++ [s]
            ∧ s = (if truthy (get data "err")
                   then mkSignal e LoadProject Failure (get data "err")
                   else mkSignal e LoadProject Success VNull)).
Proof.
  intros Hl. destruct (settle_outbox a p _ (Fulfilled data) Hl) as (a' & Hs & Ho).
  exists a'. split; [exact Hs|]. rewrite Ho. simpl. unfold get.
  repeat split.
  - by intros [-> | ->].
  - by intros ->.
  - eexists. split; [|reflexivity]. by destruct (truthy _).
Qed.

(** C5: get-previous-state and transition-to-state.  When the round trip is
    fulfilled, the renderer receives one signal carrying the reply's
    available value: Success when that value is truthy, Failure otherwise. *)
Theorem availability_reply_mapping a p t e id data :
  t = TPrevState e ∨ t = TDirectStateTransition e id →
  pending a !! p = Some t →
  ∃ a', step a (Worker p (Fulfilled data)) = Some a'
    ∧ outbox a' = outbox a ++
        [mkSignal e (topic (request t))
           (if truthy (get data "available") then Success else Failure)
           (get data "available")].
Proof.
  intros Ht Hl. destruct (settle_outbox a p _ (Fulfilled data) Hl) as (a' & Hs & Ho).
  exists a'. split; [exact Hs|]. rewrite Ho.
  destruct Ht as [-> | ->]; simpl; by destruct (truthy _).
Qed.

(** C6: get-metadata and get-data.  When the round trip is fulfilled, the
    renderer receives one signal: Success carrying the reply's data when the
    reply carries data (a value that [if (response.data)] accepts), Failure
    with payload null otherwise, in particular when data is absent. *)
Theorem data_reply_mapping a p t e id data :
  t = TGetMetadata e id ∨ t = TGetData e →
  pending a !! p = Some t →
  ∃ a', step a (Worker p (Fulfilled data)) = Some a'
    ∧ outbox a' = outbox a ++
        [if truthy (get data "data")
         then mkSignal e (topic (request t)) Success (get data "data")
         else mkSignal e (topic (request t)) Failure VNull]
    ∧ (data !! "data" = None →
         outbox a' = outbox a ++ [mkSignal e (topic (request t)) Failure VNull]).
Proof.
  intros Ht Hl. destruct (settle_outbox a p _ (Fulfilled data) Hl) as (a' & Hs & Ho).
  exists a'. split; [exact Hs|]. rewrite Ho.
  destruct Ht as [-> | ->]; simpl; unfold get; split;
    solve [by destruct (truthy _) | by intros ->].
Qed.

(** C7: list-symbols.  When the round trip is fulfilled with a reply that
    carries a symbols collection, the renderer receives Success carrying that
    collection; when symbols is absent it receives nothing.  No other task
    has a fulfilled reply that leaves the renderer without a signal. *)
Theorem symbols_reply_mapping a p e data :
  pending a !! p = Some (TGetSymbols e) →
  ∃ a', step a (Worker p (Fulfilled data)) = Some a'
    ∧ (∀ items, data !! "symbols" = Some (VArray items) →
         outbox a' = outbox a ++ [mkSignal e GetSymbols Success (VArray items)])
    ∧ (truthy (get data "symbols") = true →
         outbox a' = outbox a ++ [mkSignal e GetSymbols Success (get data "symbols")])
    ∧ (data !! "symbols" = None ∨ data !! "symbols" = Some VNull →
         outbox a' = outbox a)
    ∧ (truthy (get data "symbols") = false → outbox a' = outbox a)
    ∧ (∀ t, (∃ data', round_trip t (Fulfilled data') = []) ↔ ∃ e', t = TGetSymbols e').
Proof.
  intros Hl. destruct (settle_outbox a p _ (Fulfilled data) Hl) as (a' & Hs & Ho).
  exists a'. split; [exact Hs|]. rewrite Ho. simpl. unfold get.
  split; [|split; [|split; [|split]]].
  - by intros items ->.
  - by intros ->.
  - intros [-> | ->]; simpl; by rewrite app_nil_r.
  - intros ->. by rewrite app_nil_r.
  - intros t. split.
    + intros [data' Hnil]. destruct t; simpl in Hnil;
        try (destruct (truthy _); discriminate); [by eexists | discriminate].
    + intros [e' ->]. by exists ∅.
Qed.

(** C8, as the code has it: toggle-libraries.  When the round trip is
    fulfilled, whatever the reply, the renderer receives one Success signal
    with payload true; when the round trip is rejected it receives nothing.
    No outcome produces a Failure signal. *)
Theorem toggle_libs_signal a p e o :
  pending a !! p = Some (TToggleLibs e) →
  ∃ a', step a (Worker p o) = Some a'
    ∧ outbox a' = outbox a ++
        (if fulfilled o then [mkSignal e ToggleLibs Success (VBool true)] else [])
    ∧ (∀ s, s ∈ round_trip (TToggleLibs e) o → status s = Success).
Proof.
  intros Hl. destruct (settle_outbox a p _ o Hl) as (a' & Hs & Ho).
  exists a'. split; [exact Hs|]. rewrite Ho. split.
  - by destruct o.
  - intros s. destruct o; simpl.
    + by intros ->%list_elem_of_singleton.
    + by intros ?%not_elem_of_nil.
Qed.

(** C10: get-metadata and get-data test the truthiness of the reply's data,
    not its presence.  A reply whose data is present but is the empty string,
    a zero, NaN, false or null produces Failure with payload null, and no
    Success signal carrying that value. *)
Theorem falsy_data_is_failure a p t e id data v :
  t = TGetMetadata e id ∨ t = TGetData e →
  pending a !! p = Some t →
  data !! "data" = Some v →
  v = VString "" ∨ (∃ s, v = VNumber (S754_zero s)) ∨ v = VNumber S754_nan
    ∨ v = VBool false ∨ v = VNull →
  ∃ a', step a (Worker p (Fulfilled data)) = Some a'
    ∧ outbox a' = outbox a ++ [mkSignal e (topic (request t)) Failure VNull]
    ∧ mkSignal e (topic (request t)) Success v ∉ round_trip t (Fulfilled data).
Proof.
  intros Ht Hl Hd Hv.
  destruct (settle_outbox a p _ (Fulfilled data) Hl) as (a' & Hs & Ho).
  exists a'. split; [exact Hs|]. rewrite Ho.
  assert (Hf : truthy v = false).
  { apply truthy_false_iff. destruct Hv as [->|[[s ->]|[->|[->| ->]]]]; eauto 8. }
  destruct Ht as [-> | ->]; simpl; unfold get; rewrite Hd; simpl; rewrite Hf;
    (split; [done|]); intros Hin%list_elem_of_singleton; discriminate.
Qed.

End RouterProperties.

(** ** The project state history *)

Section HistoryProperties.
Context {State : Type}.
Implicit Types (a : App State).

Lemma states_run ins : ∀ a a', run a ins = Some a' → states a' = states a.
Proof.
  induction ins as [|i ins IH]; simpl; intros a a'.
  - by intros [= <-].
  - destruct (step a i) as [a1|] eqn:Hs; [|done].
    intros Hrun. rewrite (IH _ _ Hrun). by eapply states_step.
Qed.

(** C9: no command and no queue operation writes [states].  Whatever the
    sequence of commands and worker replies, the sequence is the one the
    run started with; it is empty after [init], so the getter [state]
    returns undefined after every run of the application. *)
Theorem states_never_written a ins a' :
  run a ins = Some a' →
  states a' = states a
  ∧ (∀ cfg menuEnabled, a = init cfg menuEnabled → states a' = [] ∧ state a' = None).
Proof.
  intros Hrun. pose proof (states_run _ _ _ Hrun) as Hst. split; [exact Hst|].
  intros cfg menuEnabled ->. unfold state. rewrite Hst. by split.
Qed.

End HistoryProperties.

(** ** The theorems at sample runs *)

Lemma awaiting_reachable (m : Ipc) : reachable (awaiting m).
Proof. exists (VObject ∅), true, [Renderer m]. reflexivity. Qed.

(** Toggle-libraries with a rejected round trip: the step is taken and the
    renderer receives nothing, so the Success signal that C8 promises for a
    rejection is not sent. *)
Lemma toggle_libs_rejection_sends_nothing :
  ∃ a a' : App unit,
    run started [Renderer (OnToggleLibs 7)] = Some a
    ∧ pending a !! 0 = Some (TToggleLibs 7)
    ∧ step a (Worker 0 (Rejected (VString "worker exited"))) = Some a'
    ∧ outbox a' = []
    ∧ outbox a' ≠ outbox a ++ [mkSignal 7 ToggleLibs Success (VBool true)].
Proof.
  eexists. eexists. split; [reflexivity|]. split; [reflexivity|].
  split; [reflexivity|]. split; [reflexivity|]. discriminate.
Qed.

Lemma rejection_is_absorbed_witness :
  (pending waiting !! 0 = Some (TGetData 7)
   ∧ queue waiting = [] ++ [TToggleLibs 8]
   ∧ ∃ a1,
      step waiting (Worker 0 (Rejected VUndefined)) = Some a1
      ∧ outbox a1 = outbox waiting
      ∧ (∀ q tB, queue waiting = q ++ [tB] →
           queue a1 = q
           ∧ pending a1 = <[fresh waiting := tB]> (delete 0 (pending waiting))
           ∧ log a1 = log waiting ++ [Settled 0 false; Started (fresh waiting) (request tB)]
           ∧ ∀ reply, ∃ a2,
               step a1 (Worker (fresh waiting) (Fulfilled reply)) = Some a2
               ∧ outbox a2 = outbox waiting ++ on_fulfilled tB reply)
      ∧ (queue waiting = [] →
           queue a1 = []
           ∧ pending a1 = delete 0 (pending waiting)
           ∧ pending a1 !! 0 = None
           ∧ log a1 = log waiting ++ [Settled 0 false]
           ∧ ∀ mB tB reply, pushed mB = Some tB →
               ∃ a2 a3,
                 step a1 (Renderer mB) = Some a2
                 ∧ pending a2 !! fresh a1 = Some tB
                 ∧ log a2 = log a1 ++ [Started (fresh a1) (request tB)]
                 ∧ step a2 (Worker (fresh a1) (Fulfilled reply)) = Some a3
                 ∧ log a3 = log a2 ++ map Emitted (on_fulfilled tB reply)
                                  ++ [Settled (fresh a1) true])
      ∧ (reachable waiting → queue waiting = [])
      ∧ (∀ reply, ∃ a1',
           step waiting (Worker 0 (Fulfilled reply)) = Some a1'
           ∧ queue a1' = queue a1 ∧ pending a1' = pending a1
           ∧ fresh a1' = fresh a1))
  ∧ (pending (awaiting (OnGetData 7)) !! 0 = Some (TGetData 7)
     ∧ queue (awaiting (OnGetData 7)) = []
     ∧ reachable (awaiting (OnGetData 7))
     ∧ ∃ a1,
      step (awaiting (OnGetData 7)) (Worker 0 (Rejected VUndefined)) = Some a1
      ∧ outbox a1 = outbox (awaiting (OnGetData 7))
      ∧ (∀ q tB, queue (awaiting (OnGetData 7)) = q ++ [tB] →
           queue a1 = q
           ∧ pending a1 = <[fresh (awaiting (OnGetData 7)) := tB]> (delete 0 (pending (awaiting (OnGetData 7))))
           ∧ log a1 = log (awaiting (OnGetData 7)) ++ [Settled 0 false; Started (fresh (awaiting (OnGetData 7))) (request tB)]
           ∧ ∀ reply, ∃ a2,
               step a1 (Worker (fresh (awaiting (OnGetData 7))) (Fulfilled reply)) = Some a2
               ∧ outbox a2 = outbox (awaiting (OnGetData 7)) ++ on_fulfilled tB reply)
      ∧ (queue (awaiting (OnGetData 7)) = [] →
           queue a1 = []
           ∧ pending a1 = delete 0 (pending (awaiting (OnGetData 7)))
           ∧ pending a1 !! 0 = None
           ∧ log a1 = log (awaiting (OnGetData 7)) ++ [Settled 0 false]
           ∧ ∀ mB tB reply, pushed mB = Some tB →
               ∃ a2 a3,
                 step a1 (Renderer mB) = Some a2
                 ∧ pending a2 !! fresh a1 = Some tB
                 ∧ log a2 = log a1 ++ [Started (fresh a1) (request tB)]
                 ∧ step a2 (Worker (fresh a1) (Fulfilled reply)) = Some a3
                 ∧ log a3 = log a2 ++ map Emitted (on_fulfilled tB reply)
                                  ++ [Settled (fresh a1) true])
      ∧ (reachable (awaiting (OnGetData 7)) → queue (awaiting (OnGetData 7)) = [])
      ∧ (∀ reply, ∃ a1',
           step (awaiting (OnGetData 7)) (Worker 0 (Fulfilled reply)) = Some a1'
           ∧ queue a1' = queue a1 ∧ pending a1' = pending a1
           ∧ fresh a1' = fresh a1)).
Proof.
  split.
  - split; [reflexivity|]. split; [reflexivity|].
    apply (rejection_is_absorbed waiting 0 (TGetData 7) VUndefined). reflexivity.
  - split; [reflexivity|]. split; [reflexivity|].
    split; [apply awaiting_reachable|].
    apply (rejection_is_absorbed (awaiting (OnGetData 7)) 0 (TGetData 7) VUndefined).
    reflexivity.
Defined.

Lemma load_project_reply_mapping_witness :
  pending (awaiting (OnLoadProject 7 "tsconfig.json" true)) !! 0
    = Some (TLoadProject 7 "tsconfig.json" true)
  ∧ ∃ a' : App unit,
      step (awaiting (OnLoadProject 7 "tsconfig.json" true))
           (Worker 0 (Fulfilled {[ "err" := VString "X" ]})) = Some a'
      ∧ (({[ "err" := VString "X" ]} : gmap string value) !! "err" = None
         ∨ ({[ "err" := VString "X" ]} : gmap string value) !! "err" = Some VNull →
           outbox a' = outbox (awaiting (OnLoadProject 7 "tsconfig.json" true))
                       ++ [mkSignal 7 LoadProject Success VNull])
      ∧ (truthy (get {[ "err" := VString "X" ]} "err") = true →
           outbox a' = outbox (awaiting (OnLoadProject 7 "tsconfig.json" true))
                       ++ [mkSignal 7 LoadProject Failure
                             (get {[ "err" := VString "X" ]} "err")])
      ∧ (∃ s, outbox a' = outbox (awaiting (OnLoadProject 7 "tsconfig.json" true)) ++ [s]
              ∧ s = (if truthy (get {[ "err" := VString "X" ]} "err")
                     then mkSignal 7 LoadProject Failure
                            (get {[ "err" := VString "X" ]} "err")
                     else mkSignal 7 LoadProject Success VNull)).
Proof.
  split; [reflexivity|].
  apply (load_project_reply_mapping
           (awaiting (OnLoadProject 7 "tsconfig.json" true)) 0 7 "tsconfig.json" true
           {[ "err" := VString "X" ]}).
  reflexivity.
Defined.

Lemma availability_reply_mapping_witness :
  (TPrevState 7 = TPrevState 7 ∨ TPrevState 7 = TDirectStateTransition 7 "")
  ∧ pending (awaiting (OnPrevState 7)) !! 0 = Some (TPrevState 7)
  ∧ ∃ a' : App unit,
      step (awaiting (OnPrevState 7))
           (Worker 0 (Fulfilled {[ "available" := VBool false ]})) = Some a'
      ∧ outbox a' = outbox (awaiting (OnPrevState 7)) ++
          [mkSignal 7 (topic (request (TPrevState 7)))
             (if truthy (get {[ "available" := VBool false ]} "available")
              then Success else Failure)
             (get {[ "available" := VBool false ]} "available")].
Proof.
  split; [by left|]. split; [reflexivity|].
  apply (availability_reply_mapping (awaiting (OnPrevState 7)) 0 (TPrevState 7) 7 ""
           {[ "available" := VBool false ]}); [by left | reflexivity].
Defined.

Lemma data_reply_mapping_witness :
  (TGetData 7 = TGetMetadata 7 "" ∨ TGetData 7 = TGetData 7)
  ∧ pending (awaiting (OnGetData 7)) !! 0 = Some (TGetData 7)
  ∧ ∃ a' : App unit,
      step (awaiting (OnGetData 7))
           (Worker 0 (Fulfilled {[ "data" := VObject ∅ ]})) = Some a'
      ∧ outbox a' = outbox (awaiting (OnGetData 7)) ++
          [if truthy (get {[ "data" := VObject ∅ ]} "data")
           then mkSignal 7 (topic (request (TGetData 7))) Success
                  (get {[ "data" := VObject ∅ ]} "data")
           else mkSignal 7 (topic (request (TGetData 7))) Failure VNull]
      ∧ (({[ "data" := VObject ∅ ]} : gmap string value) !! "data" = None →
           outbox a' = outbox (awaiting (OnGetData 7))
                       ++ [mkSignal 7 (topic (request (TGetData 7))) Failure VNull]).
Proof.
  split; [by right|]. split; [reflexivity|].
  apply (data_reply_mapping (awaiting (OnGetData 7)) 0 (TGetData 7) 7 ""
           {[ "data" := VObject ∅ ]}); [by right | reflexivity].
Defined.

Lemma symbols_reply_mapping_witness :
  pending (awaiting (OnGetSymbols 7)) !! 0 = Some (TGetSymbols 7)
  ∧ ∃ a' : App unit,
      step (awaiting (OnGetSymbols 7)) (Worker 0 (Fulfilled ∅)) = Some a'
      ∧ (∀ items, (∅ : gmap string value) !! "symbols" = Some (VArray items) →
           outbox a' = outbox (awaiting (OnGetSymbols 7))
                       ++ [mkSignal 7 GetSymbols Success (VArray items)])
      ∧ (truthy (get ∅ "symbols") = true →
           outbox a' = outbox (awaiting (OnGetSymbols 7))
                       ++ [mkSignal 7 GetSymbols Success (get ∅ "symbols")])
      ∧ ((∅ : gmap string value) !! "symbols" = None
         ∨ (∅ : gmap string value) !! "symbols" = Some VNull →
           outbox a' = outbox (awaiting (OnGetSymbols 7)))
      ∧ (truthy (get ∅ "symbols") = false →
           outbox a' = outbox (awaiting (OnGetSymbols 7)))
      ∧ (∀ t, (∃ data', round_trip t (Fulfilled data') = [])
              ↔ ∃ e', t = TGetSymbols e').
Proof.
  split; [reflexivity|].
  apply (symbols_reply_mapping (awaiting (OnGetSymbols 7)) 0 7 ∅). reflexivity.
Defined.

Lemma toggle_libs_signal_witness :
  pending (awaiting (OnToggleLibs 7)) !! 0 = Some (TToggleLibs 7)
  ∧ ∃ a' : App unit,
      step (awaiting (OnToggleLibs 7)) (Worker 0 (Rejected VNull)) = Some a'
      ∧ outbox a' = outbox (awaiting (OnToggleLibs 7)) ++
          (if fulfilled (Rejected VNull)
           then [mkSignal 7 ToggleLibs Success (VBool true)] else [])
      ∧ (∀ s, s ∈ round_trip (TToggleLibs 7) (Rejected VNull) → status s = Success).
Proof.
  split; [reflexivity|].
  apply (toggle_libs_signal (awaiting (OnToggleLibs 7)) 0 7 (Rejected VNull)).
  reflexivity.
Defined.

Lemma falsy_data_is_failure_witness :
  (TGetMetadata 7 "AppComponent" = TGetMetadata 7 "AppComponent"
   ∨ TGetMetadata 7 "AppComponent" = TGetData 7)
  ∧ pending (awaiting (OnGetMetadata 7 "AppComponent")) !! 0
      = Some (TGetMetadata 7 "AppComponent")
  ∧ ({[ "data" := VString "" ]} : gmap string value) !! "data" = Some (VString "")
  ∧ (VString "" = VString "" ∨ (∃ s, VString "" = VNumber (S754_zero s))
     ∨ VString "" = VNumber S754_nan ∨ VString "" = VBool false ∨ VString "" = VNull)
  ∧ ∃ a' : App unit,
      step (awaiting (OnGetMetadata 7 "AppComponent"))
           (Worker 0 (Fulfilled {[ "data" := VString "" ]})) = Some a'
      ∧ outbox a' = outbox (awaiting (OnGetMetadata 7 "AppComponent"))
          ++ [mkSignal 7 (topic (request (TGetMetadata 7 "AppComponent"))) Failure VNull]
      ∧ mkSignal 7 (topic (request (TGetMetadata 7 "AppComponent"))) Success (VString "")
          ∉ round_trip (TGetMetadata 7 "AppComponent")
              (Fulfilled {[ "data" := VString "" ]}).
Proof.
  split; [by left|]. split; [reflexivity|]. split; [reflexivity|]. split; [by left|].
  apply (falsy_data_is_failure (awaiting (OnGetMetadata 7 "AppComponent")) 0
           (TGetMetadata 7 "AppComponent") 7 "AppComponent"
           {[ "data" := VString "" ]} (VString ""));
    [by left | reflexivity | reflexivity | by left].
Defined.

Lemma states_never_written_witness :
  run started [Renderer (OnGetData 7); Renderer (OnEnableExport 7);
               Worker 0 (Fulfilled ∅)] = Some answered
  ∧ states answered = states started
  ∧ (∀ cfg menuEnabled, started = init cfg menuEnabled →
       states answered = [] ∧ state answered = None).
Proof.
  split; [reflexivity|].
  apply (states_never_written started
           [Renderer (OnGetData 7); Renderer (OnEnableExport 7); Worker 0 (Fulfilled ∅)]).
  reflexivity.
Defined.

(** ** Runs of the application, one turn at a time *)

Section RunFacts.
Context {State : Type}.
Implicit Types (a : App State) (t : Task) (p : Pid) (o : Outcome) (m : Ipc).

Lemma run_snoc ins : ∀ a i a',
  run a (ins ++ [i]) = Some a' ↔ ∃ a1, run a ins = Some a1 ∧ step a1 i = Some a'.
Proof.
  induction ins as [|j ins IH]; simpl; intros a i a'.
  - split.
    + intros Hs. exists a. split; [done|]. by destruct (step a i).
    + intros (a1 & [= <-] & Hs). by rewrite Hs.
  - destruct (step a j) as [a2|]; [apply IH|].
    split; [done | by intros (a1 & ? & _)].
Qed.

(** Induction over the runs that start from [init], last turn last. *)
Lemma run_from_init_ind (P : list Input → App State → Prop) cfg menuEnabled :
  P [] (init cfg menuEnabled) →
  (∀ ins a i a',
      run (init cfg menuEnabled) ins = Some a → P ins a →
      step a i = Some a' → P (ins ++ [i]) a') →
  ∀ ins a, run (init cfg menuEnabled) ins = Some a → P ins a.
Proof.
  intros Hinit Hstep ins. induction ins as [|i ins IH] using rev_ind; intros a.
  - by intros [= <-].
  - intros (a1 & Hrun & Hs)%run_snoc. eapply Hstep; eauto.
Qed.

Lemma run_idle_backlog cfg menuEnabled ins a :
  run (init cfg menuEnabled) ins = Some a → idle_backlog a.
Proof. intros Hrun. apply reachable_idle_backlog. by exists cfg, menuEnabled, ins. Qed.

(** A listener that pushes nothing answers in its own turn and touches
    neither the queue nor the worker. *)
Lemma on_ipc_unqueued m a :
  pushed m = None →
  ∃ v, on_ipc m a
       = record [Emitted (mkSignal (sender m) (kind m) Success v)]
           (set_exportEnabled (default (exportEnabled a) (export_assignment m)) a)
     ∧ (v = VBool true ∨ (v = config a ∧ kind m = Config)).
Proof.
  destruct m; try discriminate; intros _; simpl.
  - exists (config a). split; [by destruct a | by right].
  - exists (VBool true). split; [done | by left].
  - exists (VBool true). split; [done | by left].
Qed.

(** The three shapes of a turn, in a state with an empty backlog. *)
Lemma step_cases a i a' :
  queue a = [] → step a i = Some a' →
  (∃ m t, i = Renderer m ∧ pushed m = Some t ∧ a' = call (Some t) a)
  ∨ (∃ m, i = Renderer m ∧ pushed m = None ∧ a' = on_ipc m a)
  ∨ (∃ p o t, i = Worker p o ∧ pending a !! p = Some t
       ∧ a' = record (map Emitted (round_trip t o) ++ [Settled p (fulfilled o)])
                (set_pending (delete p (pending a)) a)).
Proof.
  intros Hq. destruct i as [m|p o]; simpl.
  - intros [= <-]. destruct (pushed m) as [t|] eqn:Hm.
    + left. exists m, t. by rewrite (on_ipc_pushed _ _ _ Hm), push_calls_at_once.
    + right. left. by exists m.
  - unfold on_settle. destruct (pending a !! p) as [t|] eqn:Hl; [|done].
    intros [= <-]. right. right. exists p, o, t. by rewrite next_nothing.
Qed.

Lemma commands_snoc ins i :
  commands (ins ++ [i]) =
  commands ins ++ match i with Renderer m => [m] | Worker _ _ => [] end.
Proof. unfold commands. rewrite omap_app. by destruct i. Qed.

Lemma settlements_snoc ins i :
  settlements (ins ++ [i]) =
  settlements ins + match i with Renderer _ => 0 | Worker _ _ => 1 end.
Proof. unfold settlements. rewrite omap_app, length_app. by destruct i. Qed.

Lemma executing_call t a :
  idle_backlog a → executing (call (Some t) a) = S (executing a).
Proof.
  intros [_ Hp]. unfold executing. simpl. apply map_size_insert_None.
  destruct (pending a !! fresh a) as [t'|] eqn:Hl; [|done].
  apply Hp in Hl. lia.
Qed.

Lemma executing_settle a p t :
  pending a !! p = Some t → S (size (delete p (pending a))) = executing a.
Proof.
  intros Hl. unfold executing. rewrite map_size_delete, Hl.
  destruct (size (pending a)) as [|n] eqn:Hn; [|done].
  apply map_size_empty_inv in Hn. rewrite Hn, lookup_empty in Hl. done.
Qed.

(** A signal sent for a task goes to the sender and on the channel of the
    command that pushed the task; there is at most one. *)
Lemma round_trip_route m t o s :
  pushed m = Some t → s ∈ round_trip t o →
  target s = sender m ∧ channel s = kind m.
Proof.
  intros Hm. destruct o as [data|reason]; [|by intros ?%not_elem_of_nil].
  destruct m; try discriminate; injection Hm as <-; simpl;
    try destruct (truthy _); simpl;
    first [ by intros ->%list_elem_of_singleton | by intros ?%not_elem_of_nil ].
Qed.

Lemma round_trip_length t o : length (round_trip t o) ≤ 1.
Proof.
  destruct o as [data|reason]; [|simpl; lia].
  destruct t; simpl; try destruct (truthy _); simpl; lia.
Qed.

Lemma round_trip_expected t o s : s ∈ round_trip t o → expected s.
Proof.
  destruct o as [data|reason]; [|by intros ?%not_elem_of_nil].
  destruct t; simpl;
    try (destruct (truthy _) eqn:Htr; simpl);
    first [ intros ->%list_elem_of_singleton; by unfold expected
          | by intros ?%not_elem_of_nil ].
Qed.

End RunFacts.

(** ** What the queue does on the running application *)

Section DispatchProperties.
Context {State : Type}.
Implicit Types (a : App State) (t : Task) (p : Pid) (o : Outcome) (m : Ipc).

Lemma sent_record evs a :
  sent (record evs a)
  = sent a ++ omap (λ ev, match ev with Started _ req => Some req | _ => None end) evs.
Proof. unfold sent. simpl. apply omap_app. Qed.

Lemma sent_emitted (sigs : list Signal) :
  omap (λ ev, match ev with Started _ req => Some req | _ => None end)
       (map Emitted sigs) = [].
Proof. induction sigs as [|s sigs IH]; [done|]. cbn. exact IH. Qed.

Lemma sent_unqueued m a : pushed m = None → sent (on_ipc m a) = sent a.
Proof.
  intros Hm. destruct (on_ipc_unqueued m a Hm) as (v & -> & _).
  rewrite sent_record. simpl. by rewrite app_nil_r.
Qed.

Lemma outbox_unqueued m a :
  pushed m = None →
  ∃ v, outbox (on_ipc m a) = outbox a ++ [mkSignal (sender m) (kind m) Success v]
       ∧ (v = VBool true ∨ (v = config a ∧ kind m = Config)).
Proof.
  intros Hm. destruct (on_ipc_unqueued m a Hm) as (v & -> & Hv).
  exists v. split; [|exact Hv]. by rewrite outbox_record.
Qed.

(** X1: a queued command never waits.  In every state the application can
    be in after [init], the listener of a queued command hands the request
    to the worker in the same turn, under a promise identity that is not in
    use, whatever is still in flight; the backlog is empty again when the
    turn ends. *)
Theorem command_is_sent_at_once cfg menuEnabled ins a m t :
  run (init cfg menuEnabled) ins = Some a →
  pushed m = Some t →
  ∃ a', step a (Renderer m) = Some a'
    ∧ log a' = log a ++ [Started (fresh a) (request t)]
    ∧ pending a !! fresh a = None
    ∧ pending a' = <[fresh a := t]> (pending a)
    ∧ executing a' = S (executing a)
    ∧ queue a' = [].
Proof.
  intros Hrun Hm. pose proof (run_idle_backlog _ _ _ _ Hrun) as Hinv.
  destruct Hinv as [Hq Hp]. exists (call (Some t) a). repeat split.
  - simpl. by rewrite (on_ipc_pushed _ _ _ Hm), push_calls_at_once.
  - destruct (pending a !! fresh a) as [t'|] eqn:Hl; [|done].
    apply Hp in Hl. lia.
  - by apply executing_call.
  - exact Hq.
Qed.

(** X2: a settlement starts nothing.  In every state the application can be
    in after [init], when a round trip settles the turn sends the task's
    signals, marks the promise settled and removes it; the [next()] chained
    on the promise finds the backlog empty, so no request goes to the worker
    and the other tasks in flight stay as they are. *)
Theorem settlement_starts_nothing cfg menuEnabled ins a p t o :
  run (init cfg menuEnabled) ins = Some a →
  pending a !! p = Some t →
  ∃ a', step a (Worker p o) = Some a'
    ∧ log a' = log a ++ map Emitted (round_trip t o) ++ [Settled p (fulfilled o)]
    ∧ pending a' = delete p (pending a)
    ∧ sent a' = sent a
    ∧ S (executing a') = executing a
    ∧ fresh a' = fresh a
    ∧ queue a' = [].
Proof.
  intros Hrun Hl. destruct (run_idle_backlog _ _ _ _ Hrun) as [Hq Hp].
  eexists. split.
  - simpl. unfold on_settle. rewrite Hl. by rewrite next_nothing.
  - repeat split; try done.
    + rewrite sent_record, omap_app, sent_emitted. simpl. by rewrite app_nil_r.
    + by apply (executing_settle a p t).
Qed.

(** X3: requests reach the worker in the order the commands arrive.  After
    any run from [init], the requests handed to [slaveProcess.send] are the
    requests of the queued commands received, one for each, in order of
    arrival. *)
Theorem requests_in_arrival_order cfg menuEnabled ins a :
  run (init cfg menuEnabled) ins = Some a →
  sent a = request <$> omap pushed (commands ins).
Proof.
  revert ins a. apply run_from_init_ind; [done|].
  intros ins a i a' Hrun IH Hs.
  destruct (run_idle_backlog _ _ _ _ Hrun) as [Hq Hp].
  rewrite commands_snoc, omap_app, fmap_app, <- IH.
  destruct (step_cases a i a' Hq Hs)
    as [(m & t & -> & Hm & ->)|[(m & -> & Hm & ->)|(p & o & t & -> & Hl & ->)]].
  - simpl. rewrite Hm. unfold call. by rewrite sent_record.
  - simpl. rewrite Hm. simpl. by rewrite app_nil_r, sent_unqueued.
  - simpl. rewrite sent_record, omap_app, sent_emitted. simpl.
    by rewrite !app_nil_r.
Qed.

(** X4: no task is lost and none is called twice.  After any run from
    [init], the tasks in flight together with the settlements seen are as
    many as the queued commands received, and as many promises have been
    created. *)
Theorem in_flight_accounting cfg menuEnabled ins a :
  run (init cfg menuEnabled) ins = Some a →
  executing a + settlements ins = length (omap pushed (commands ins))
  ∧ fresh a = length (omap pushed (commands ins)).
Proof.
  revert ins a. apply run_from_init_ind; [done|].
  intros ins a i a' Hrun [IHe IHf] Hs.
  pose proof (run_idle_backlog _ _ _ _ Hrun) as Hinv.
  rewrite commands_snoc, settlements_snoc, omap_app, length_app.
  destruct (step_cases a i a' (proj1 Hinv) Hs)
    as [(m & t & -> & Hm & ->)|[(m & -> & Hm & ->)|(p & o & t & -> & Hl & ->)]].
  - rewrite executing_call by done. simpl. rewrite Hm. simpl. lia.
  - destruct (on_ipc_unqueued m a Hm) as (v & -> & _). unfold executing in *.
    simpl. rewrite Hm. simpl. lia.
  - pose proof (executing_settle a p t Hl) as Hsz.
    unfold executing in *. simpl. lia.
Qed.

End DispatchProperties.

(** ** What the renderer can receive *)

Section SignalProperties.
Context {State : Type}.
Implicit Types (a : App State) (t : Task) (p : Pid) (o : Outcome) (m : Ipc).

(** X5: no cross-routing.  After any run from [init], every signal the
    renderer has received answers a command that was received in that run:
    it went to that command's sender, on that command's channel. *)
Theorem signals_answer_commands cfg menuEnabled ins a s :
  run (init cfg menuEnabled) ins = Some a →
  s ∈ outbox a →
  ∃ m, m ∈ commands ins ∧ target s = sender m ∧ channel s = kind m.
Proof.
  intros Hrun. revert s.
  enough (Hboth :
    (∀ p t, pending a !! p = Some t → ∃ m, m ∈ commands ins ∧ pushed m = Some t)
    ∧ (∀ s, s ∈ outbox a →
         ∃ m, m ∈ commands ins ∧ target s = sender m ∧ channel s = kind m))
    by apply Hboth.
  revert ins a Hrun. apply run_from_init_ind.
  - split; [intros p t; simpl; by rewrite lookup_empty|].
    intros s ?%not_elem_of_nil. done.
  - intros ins a i a' Hrun [IHp IHo] Hs.
    destruct (run_idle_backlog _ _ _ _ Hrun) as [Hq _].
    rewrite commands_snoc.
    destruct (step_cases a i a' Hq Hs)
      as [(m & t & -> & Hm & ->)|[(m & -> & Hm & ->)|(p & o & t & -> & Hl & ->)]].
    + split.
      * intros p t'. simpl. rewrite lookup_insert. case_decide.
        -- intros [= <-]. exists m. split; [|done]. apply elem_of_app. right.
           by apply list_elem_of_singleton.
        -- intros (m' & Hin & Hm')%IHp. exists m'. split; [|done].
           apply elem_of_app. by left.
      * intros s. rewrite outbox_call.
        intros (m' & Hin & Hm')%IHo. exists m'. split; [|done].
        apply elem_of_app. by left.
    + destruct (on_ipc_unqueued m a Hm) as (v & -> & _). split.
      * intros p t'. simpl. intros (m' & Hin & Hm')%IHp. exists m'.
        split; [|done]. apply elem_of_app. by left.
      * intros s. rewrite outbox_record. simpl.
        intros [Hin | ->%list_elem_of_singleton]%elem_of_app.
        -- destruct (IHo s Hin) as (m' & Hin' & Hm'). exists m'.
           split; [|done]. apply elem_of_app. by left.
        -- exists m. split; [|done]. apply elem_of_app. right.
           by apply list_elem_of_singleton.
    + rewrite app_nil_r. split.
      * intros p' t'. simpl. rewrite lookup_delete. case_decide; [done|].
        apply IHp.
      * intros s. rewrite outbox_record, omap_app, omap_emitted. simpl.
        rewrite app_nil_r. intros [Hin | Hin]%elem_of_app; [by apply IHo|].
        destruct (IHp p t Hl) as (m' & Hin' & Hm'). exists m'.
        split; [done|]. by apply (round_trip_route m' t o s).
Qed.

(** X6: at most one answer per command.  After any run from [init], the
    signals the renderer has received and the tasks still in flight are
    together no more than the commands received. *)
Theorem at_most_one_answer cfg menuEnabled ins a :
  run (init cfg menuEnabled) ins = Some a →
  length (outbox a) + executing a ≤ length (commands ins).
Proof.
  revert ins a. apply run_from_init_ind.
  { unfold executing. simpl. rewrite map_size_empty. lia. }
  intros ins a i a' Hrun IH Hs.
  pose proof (run_idle_backlog _ _ _ _ Hrun) as Hinv.
  rewrite commands_snoc, length_app.
  destruct (step_cases a i a' (proj1 Hinv) Hs)
    as [(m & t & -> & Hm & ->)|[(m & -> & Hm & ->)|(p & o & t & -> & Hl & ->)]].
  - rewrite outbox_call, executing_call by done. simpl. lia.
  - destruct (on_ipc_unqueued m a Hm) as (v & -> & _).
    rewrite outbox_record, length_app. unfold outbox, executing in *. simpl. lia.
  - rewrite outbox_record, omap_app, omap_emitted, !length_app.
    pose proof (executing_settle a p t Hl) as Hsz.
    pose proof (round_trip_length t o) as Hlen.
    unfold outbox, executing in *. simpl. lia.
Qed.

(** X7: the payload table.  After any run from [init], every signal the
    renderer has received has the shape its channel allows: Failure is only
    ever sent on the load-project, previous-state, state-transition,
    get-metadata and get-data channels; a Success on the state, symbols,
    metadata and data channels carries a truthy payload; a Success on
    load-project carries null, and on toggle-libraries and the two export
    channels the boolean true; a Failure carries a truthy error on
    load-project, a falsy value on the state channels, and null on the
    metadata and data channels. *)
Theorem signals_follow_the_table cfg menuEnabled ins a :
  run (init cfg menuEnabled) ins = Some a →
  Forall expected (outbox a).
Proof.
  revert ins a. apply run_from_init_ind; [by constructor|].
  intros ins a i a' Hrun IH Hs.
  destruct (run_idle_backlog _ _ _ _ Hrun) as [Hq _].
  destruct (step_cases a i a' Hq Hs)
    as [(m & t & -> & Hm & ->)|[(m & -> & Hm & ->)|(p & o & t & -> & Hl & ->)]].
  - by rewrite outbox_call.
  - destruct (outbox_unqueued m a Hm) as (v & -> & Hv).
    apply Forall_app. split; [done|]. constructor; [|constructor].
    destruct m; try discriminate; unfold expected; simpl; [done| |];
      by destruct Hv as [-> | [_ [=]]].
  - rewrite outbox_record, omap_app, omap_emitted. simpl. rewrite app_nil_r.
    apply Forall_app. split; [done|]. apply Forall_forall.
    intros s. apply round_trip_expected.
Qed.

End SignalProperties.

(** ** The listeners that answer at once *)

Section UnqueuedProperties.
Context {State : Type}.
Implicit Types (a : App State) (m : Ipc).

Lemma config_step a i a' : step a i = Some a' → config a' = config a.
Proof.
  destruct i as [m|p o]; simpl.
  - intros [= <-]. destruct m; simpl; try done; unfold push;
      destruct (TaskQueue.push _ (queue a)) as [q [t|]]; done.
  - unfold on_settle. destruct (pending a !! p) as [t|]; [|done].
    intros [= <-]. unfold next. simpl.
    destruct (TaskQueue.next (queue a)) as [q [t'|]]; done.
Qed.

(** X8: the config command echoes the argument of [init].  After any run
    from [init(config)], a config command is answered in its own turn with
    one Success signal carrying that [config], whatever was received since;
    nothing is sent to the worker and the tasks in flight are untouched. *)
Theorem config_is_echoed cfg menuEnabled ins a e :
  run (init cfg menuEnabled) ins = Some a →
  ∃ a', step a (Renderer (OnConfig e)) = Some a'
    ∧ outbox a' = outbox a ++ [mkSignal e Config Success cfg]
    ∧ sent a' = sent a
    ∧ pending a' = pending a
    ∧ queue a' = queue a.
Proof.
  intros Hrun. assert (Hcfg : config a = cfg).
  { revert ins a Hrun. apply run_from_init_ind; [done|].
    intros ins a i a' _ IH Hs. by rewrite (config_step _ _ _ Hs). }
  eexists. split; [reflexivity|]. simpl. repeat split.
  - by rewrite outbox_record, Hcfg.
  - rewrite sent_record. simpl. by rewrite app_nil_r.
Qed.

(** X9: the export menu item follows the last export command.  After any
    run from [init], the item is enabled exactly when the last
    enable-export or disable-export command received was enable-export; if
    none was received it is as it was at [init].  No other command and no
    worker reply changes it. *)
Theorem export_menu_follows_last_command cfg menuEnabled ins a :
  run (init cfg menuEnabled) ins = Some a →
  exportEnabled a = default menuEnabled (last (omap export_assignment (commands ins))).
Proof.
  revert ins a. apply run_from_init_ind; [done|].
  intros ins a i a' Hrun IH Hs.
  destruct (run_idle_backlog _ _ _ _ Hrun) as [Hq _].
  rewrite commands_snoc, omap_app, last_app.
  destruct (step_cases a i a' Hq Hs)
    as [(m & t & -> & Hm & ->)|[(m & -> & Hm & ->)|(p & o & t & -> & Hl & ->)]].
  - destruct m; try discriminate; exact IH.
  - destruct m; try discriminate; simpl; [exact IH|done|done].
  - exact IH.
Qed.

(** X10: the commands that bypass the queue.  In any state, a config,
    disable-export or enable-export command is answered in its own turn
    with exactly one Success signal, to its sender and on its channel;
    nothing is pushed on the queue, nothing is sent to the worker, and the
    tasks in flight are untouched. *)
Theorem unqueued_commands_skip_the_worker a m :
  pushed m = None →
  ∃ a' v, step a (Renderer m) = Some a'
    ∧ log a' = log a ++ [Emitted (mkSignal (sender m) (kind m) Success v)]
    ∧ queue a' = queue a
    ∧ pending a' = pending a
    ∧ fresh a' = fresh a
    ∧ states a' = states a.
Proof.
  intros Hm. destruct (on_ipc_unqueued m a Hm) as (v & Heq & _).
  exists (on_ipc m a), v. split; [done|]. by rewrite Heq.
Qed.

(** X11: the getter [state] returns the last element of [states], and
    undefined exactly when [states] is empty. *)
Theorem state_is_last a :
  state a = last (states a) ∧ (state a = None ↔ states a = []).
Proof.
  assert (Hlast : state a = last (states a)).
  { unfold state, index. rewrite last_lookup.
    destruct (states a) as [|s l]; [done|].
    replace (Z.of_nat (length (s :: l)) - 1)%Z with (Z.of_nat (length l))
      by (simpl length; lia).
    destruct (Z.ltb_spec (Z.of_nat (length l)) 0) as [Hneg|_]; [lia|].
    by rewrite Nat2Z.id. }
  split; [done|]. rewrite Hlast. split.
  - destruct (states a) as [|s l _] using rev_ind; [done|]. by rewrite last_snoc.
  - by intros ->.
Qed.

End UnqueuedProperties.

(** ** The backlog of the queue, were a task ever to wait in it *)

Section BacklogProperties.
Context {Task : Type}.
Implicit Types (task : Task) (tasks queue : list Task).

Lemma pushes_backlog tasks : ∀ queue,
  queue ≠ [] → TaskQueue.pushes tasks queue = reverse tasks ++ queue.
Proof.
  induction tasks as [|task tasks IH]; intros queue Hne; [done|].
  unfold TaskQueue.pushes in *. simpl. rewrite push_backlog by done. simpl.
  rewrite IH by done. by rewrite reverse_cons, <- app_assoc.
Qed.

Lemma drain_enough queue : ∀ n,
  length queue ≤ n → TaskQueue.drain n queue = (reverse queue, []).
Proof.
  induction queue as [|task queue IH] using rev_ind; intros n Hn.
  - by destruct n.
  - rewrite length_app in Hn. simpl in Hn. destruct n as [|n]; [lia|].
    simpl. rewrite next_snoc, IH by lia. by rewrite reverse_snoc.
Qed.

(** X12: the backlog is first in, first out.  On a backlog that already
    holds a task, [push] only stores its task at the front and calls
    nothing; calling [next()] as many times as there are stored tasks, or
    more, then calls them oldest first, the tasks pushed last in the order
    they were pushed, and leaves the backlog empty. *)
Theorem backlog_is_first_in_first_out tasks queue n :
  queue ≠ [] →
  length queue + length tasks ≤ n →
  TaskQueue.pushes tasks queue = reverse tasks ++ queue
  ∧ (∀ task, TaskQueue.push task queue = (task :: queue, None))
  ∧ TaskQueue.drain n (TaskQueue.pushes tasks queue) = (reverse queue ++ tasks, []).
Proof.
  intros Hne Hn. rewrite pushes_backlog by done. split; [done|]. split.
  - intros task. by apply push_backlog.
  - rewrite drain_enough by (rewrite length_app, length_reverse; lia).
    by rewrite reverse_app, reverse_involutive.
Qed.

End BacklogProperties.

(** ** The further properties at sample runs *)

Lemma command_is_sent_at_once_witness :
  run (init (State := unit) (VObject ∅) true) [Renderer (OnGetData 7)]
    = Some (awaiting (OnGetData 7))
  ∧ pushed (OnToggleLibs 9) = Some (TToggleLibs 9)
  ∧ ∃ a', step (awaiting (OnGetData 7)) (Renderer (OnToggleLibs 9)) = Some a'
      ∧ log a' = log (awaiting (OnGetData 7))
                 ++ [Started (fresh (awaiting (OnGetData 7))) (request (TToggleLibs 9))]
      ∧ pending (awaiting (OnGetData 7)) !! fresh (awaiting (OnGetData 7)) = None
      ∧ pending a' = <[fresh (awaiting (OnGetData 7)) := TToggleLibs 9]>
                       (pending (awaiting (OnGetData 7)))
      ∧ executing a' = S (executing (awaiting (OnGetData 7)))
      ∧ queue a' = [].
Proof.
  split; [reflexivity|]. split; [reflexivity|].
  apply (command_is_sent_at_once (VObject ∅) true [Renderer (OnGetData 7)]
           (awaiting (OnGetData 7)) (OnToggleLibs 9) (TToggleLibs 9));
    reflexivity.
Defined.

Lemma settlement_starts_nothing_witness :
  run (init (State := unit) (VObject ∅) true) [Renderer (OnGetData 7)]
    = Some (awaiting (OnGetData 7))
  ∧ pending (awaiting (OnGetData 7)) !! 0 = Some (TGetData 7)
  ∧ ∃ a', step (awaiting (OnGetData 7)) (Worker 0 (Rejected VNull)) = Some a'
      ∧ log a' = log (awaiting (OnGetData 7))
                 ++ map Emitted (round_trip (TGetData 7) (Rejected VNull))
                 ++ [Settled 0 (fulfilled (Rejected VNull))]
      ∧ pending a' = delete 0 (pending (awaiting (OnGetData 7)))
      ∧ sent a' = sent (awaiting (OnGetData 7))
      ∧ S (executing a') = executing (awaiting (OnGetData 7))
      ∧ fresh a' = fresh (awaiting (OnGetData 7))
      ∧ queue a' = [].
Proof.
  split; [reflexivity|]. split; [reflexivity|].
  apply (settlement_starts_nothing (VObject ∅) true [Renderer (OnGetData 7)]
           (awaiting (OnGetData 7)) 0 (TGetData 7) (Rejected VNull));
    reflexivity.
Defined.

Lemma requests_in_arrival_order_witness :
  run (init (VObject ∅) true) sample_run = Some answered
  ∧ sent answered = request <$> omap pushed (commands sample_run).
Proof.
  split; [reflexivity|].
  apply (requests_in_arrival_order (VObject ∅) true sample_run answered).
  reflexivity.
Defined.

Lemma in_flight_accounting_witness :
  run (init (VObject ∅) true) sample_run = Some answered
  ∧ executing answered + settlements sample_run
      = length (omap pushed (commands sample_run))
  ∧ fresh answered = length (omap pushed (commands sample_run)).
Proof.
  split; [reflexivity|].
  apply (in_flight_accounting (VObject ∅) true sample_run answered).
  reflexivity.
Defined.

Lemma signals_answer_commands_witness :
  run (init (VObject ∅) true) sample_run = Some answered
  ∧ mkSignal 7 GetData Failure VNull ∈ outbox answered
  ∧ ∃ m, m ∈ commands sample_run
      ∧ target (mkSignal 7 GetData Failure VNull) = sender m
      ∧ channel (mkSignal 7 GetData Failure VNull) = kind m.
Proof.
  assert (Hin : mkSignal 7 GetData Failure VNull ∈ outbox answered).
  { apply elem_of_cons. right. apply elem_of_cons. by left. }
  split; [reflexivity|]. split; [exact Hin|].
  apply (signals_answer_commands (VObject ∅) true sample_run answered
           (mkSignal 7 GetData Failure VNull)); [reflexivity | exact Hin].
Defined.

Lemma at_most_one_answer_witness :
  run (init (VObject ∅) true) sample_run = Some answered
  ∧ length (outbox answered) + executing answered ≤ length (commands sample_run).
Proof.
  split; [reflexivity|].
  apply (at_most_one_answer (VObject ∅) true sample_run answered).
  reflexivity.
Defined.

Lemma signals_follow_the_table_witness :
  run (init (VObject ∅) true) sample_run = Some answered
  ∧ Forall expected (outbox answered).
Proof.
  split; [reflexivity|].
  apply (signals_follow_the_table (VObject ∅) true sample_run answered).
  reflexivity.
Defined.

Lemma config_is_echoed_witness :
  run (init (VObject ∅) true) sample_run = Some answered
  ∧ ∃ a', step answered (Renderer (OnConfig 3)) = Some a'
      ∧ outbox a' = outbox answered ++ [mkSignal 3 Config Success (VObject ∅)]
      ∧ sent a' = sent answered
      ∧ pending a' = pending answered
      ∧ queue a' = queue answered.
Proof.
  split; [reflexivity|].
  apply (config_is_echoed (VObject ∅) true sample_run answered 3).
  reflexivity.
Defined.

Lemma export_menu_follows_last_command_witness :
  run (init (State := unit) (VObject ∅) true)
      [Renderer (OnEnableExport 7); Renderer (OnGetData 7); Renderer (OnDisableExport 7)]
    = Some (mkApp [] [] {[ 0 := TGetData 7 ]} 1 (VObject ∅) false
              [Emitted (mkSignal 7 EnableExport Success (VBool true));
               Started 0 (request (TGetData 7));
               Emitted (mkSignal 7 DisableExport Success (VBool true))])
  ∧ exportEnabled
      (mkApp (State := unit) [] [] {[ 0 := TGetData 7 ]} 1 (VObject ∅) false
         [Emitted (mkSignal 7 EnableExport Success (VBool true));
          Started 0 (request (TGetData 7));
          Emitted (mkSignal 7 DisableExport Success (VBool true))])
    = default true
        (last (omap export_assignment
                 (commands [Renderer (OnEnableExport 7); Renderer (OnGetData 7);
                            Renderer (OnDisableExport 7)]))).
Proof.
  split; [reflexivity|].
  apply (export_menu_follows_last_command (VObject ∅) true
           [Renderer (OnEnableExport 7); Renderer (OnGetData 7);
            Renderer (OnDisableExport 7)]).
  reflexivity.
Defined.

Lemma unqueued_commands_skip_the_worker_witness :
  pushed (OnDisableExport 4) = None
  ∧ ∃ a' v, step (awaiting (OnGetData 7)) (Renderer (OnDisableExport 4)) = Some a'
      ∧ log a' = log (awaiting (OnGetData 7))
                 ++ [Emitted (mkSignal (sender (OnDisableExport 4))
                                (kind (OnDisableExport 4)) Success v)]
      ∧ queue a' = queue (awaiting (OnGetData 7))
      ∧ pending a' = pending (awaiting (OnGetData 7))
      ∧ fresh a' = fresh (awaiting (OnGetData 7))
      ∧ states a' = states (awaiting (OnGetData 7)).
Proof.
  split; [reflexivity|].
  apply (unqueued_commands_skip_the_worker (awaiting (OnGetData 7)) (OnDisableExport 4)).
  reflexivity.
Defined.

Lemma backlog_is_first_in_first_out_witness :
  [1] ≠ []
  ∧ length [1] + length [2; 3] ≤ 3
  ∧ TaskQueue.pushes [2; 3] [1] = reverse [2; 3] ++ [1]
  ∧ (∀ task : nat, TaskQueue.push task [1] = (task :: [1], None))
  ∧ TaskQueue.drain 3 (TaskQueue.pushes [2; 3] [1]) = (reverse [1] ++ [2; 3], []).
Proof.
  split; [done|]. split; [simpl; lia|].
  apply (backlog_is_first_in_first_out [2; 3] [1] 3); [done | simpl; lia].
Defined.
